(** * The many-shot-jailbreak validator ([validator/main.py])

    A shallow embedding of the validator plugin and the properties it
    satisfies.  The remote text-classification service is the only effect
    of the program; it is modelled as a state machine that the client talks
    to, and every request is recorded in a call log. *)

From Stdlib Require Import ZArith Ascii String DecimalString.
From stdpp Require Import base strings list gmap.

Local Open Scope Z_scope.

(** ** Python builtins used by the validator *)

Module Py.

(** The character ["\n"]. *)
Definition newline : ascii := Ascii.ascii_of_nat 10.

(** [len(s)], a Python [int]. *)
Definition len (s : string) : Z := Z.of_nat (String.length s).

(** [str(n)] for an [int], which is what an f-string field renders. *)
Definition str (n : Z) : string := NilZero.string_of_int (Z.to_int n).

(** [s.split(sep)] for a one-character separator: every occurrence of
    [sep] closes a segment, so the result has one more element than
    there are separators and is never empty. *)
Fixpoint split (sep : ascii) (s : string) : list string :=
  match s with
  | EmptyString => [EmptyString]
  | String c rest =>
      if Ascii.eqb c sep then EmptyString :: split sep rest
      else match split sep rest with
           | seg :: segs => String c seg :: segs
           | [] => [String c EmptyString]
           end
  end.

(** [sep.join(segments)]. *)
Fixpoint join (sep : ascii) (segments : list string) : string :=
  match segments with
  | [] => EmptyString
  | [seg] => seg
  | seg :: segs => seg +:+ String sep (join sep segs)
  end.

(** [s.count(c)] for a one-character [c]. *)
Fixpoint count (c : ascii) (s : string) : nat :=
  match s with
  | EmptyString => 0%nat
  | String c' rest => ((if Ascii.eqb c' c then 1 else 0) + count c rest)%nat
  end.

(** [s.endswith(c)] for a one-character [c]. *)
Fixpoint endswith (c : ascii) (s : string) : bool :=
  match s with
  | EmptyString => false
  | String c' EmptyString => Ascii.eqb c' c
  | String _ rest => endswith c rest
  end.

(** [int(b)] for a [bool]. *)
Definition int (b : bool) : Z := if b then 1 else 0.

(** [sum(xs)]: a left fold starting from [0]. *)
Definition sum (xs : list Z) : Z := fold_left Z.add xs 0.

(** Truth value of an optional string: [None] and the empty string are falsy. *)
Definition truthy (v : option string) : bool :=
  match v with
  | None => false
  | Some EmptyString => false
  | Some (String _ _) => true
  end.

(** The exceptions the constructor can raise, its own and those of the
    base class. *)
Inductive Exception : Type :=
| ValueError (msg : string)
| KeyError (key : string)
| TypeError (msg : string)
| AssertionError (msg : string).

End Py.

Import Py.

(** ** The framework's result type and the inference client *)

(** [guardrails.validator_base.ValidationResult]: only the outcome and the
    error message are set by this validator. *)
Inductive ValidationResult : Type :=
| PassResult
| FailResult (error_message : string).

Definition is_fail (r : ValidationResult) : bool :=
  match r with
  | PassResult => false
  | FailResult _ => true
  end.

(** One element of a text-classification answer.  The validator reads the
    ["label"] entry and nothing else. *)
Record ClassificationResult : Type := { label : string }.

(** [huggingface_hub.AsyncInferenceClient], as configured by [__init__]. *)
Record AsyncInferenceClient : Type :=
  { model : string; token : string; timeout : Z }.

(** An entry of the call log: which endpoint was asked, with what text, and
    what it answered. *)
Record Call : Type :=
  { call_model : string; call_text : string; call_result : ClassificationResult }.

Definition labelled_instruction (c : Call) : bool :=
  bool_decide (label (call_result c) = "LABEL_1").

(** How many logged answers carry the label of an instruction. *)
Definition instruction_count (cs : list Call) : nat :=
  length (filter (fun c => labelled_instruction c = true) cs).

Section Validator.

(** The remote service: its state, and its answer to a request (endpoint
    and text), which may depend on that state and change it.  The service
    answers every request; a request that fails raises inside the client
    library and is not part of this development. *)
Context {Server : Type}.
Variable serve : Server -> string -> string -> ClassificationResult * Server.

(** The host framework: the type of [on_fail] handlers, the state its
    base class [Validator] keeps in the object, and the constructor of that
    base class, called with [on_fail] and the keyword argument
    [num_few_shot_examples]; it either raises or sets up that state. *)
Context {OnFail Base : Type}.
Variable Validator_init : option OnFail -> Z -> Exception + Base.

Record World : Type := { server : Server; calls : list Call }.

(** Effectful computations thread the world. *)
Definition IO (A : Type) : Type := World -> A * World.

Definition ret {A : Type} (a : A) : IO A := fun w => (a, w).

Definition bind {A B : Type} (m : IO A) (k : A -> IO B) : IO B :=
  fun w => let (a, w') := m w in k a w'.

Notation "'let!' x ':=' m 'in' k" := (bind m (fun x => k))
  (at level 10, x name, m at level 100, k at level 200, only parsing).

(** [await client.text_classification(input)]: one request to the
    service, appended to the log. *)
Definition text_classification (client : AsyncInferenceClient) (input : string)
  : IO ClassificationResult :=
  fun w =>
    let (result, s') := serve (server w) (model client) input in
    (result,
     {| server := s';
        calls := calls w ++ [ {| call_model := model client;
                                 call_text := input;
                                 call_result := result |} ] |}).

(** [await asyncio.gather] over the tasks: the results are returned in the
    order of the list.  The requests are sent one after another in that
    order, each answered before the next is sent.  The source runs them
    concurrently, so a service may see them in another order; which
    answers come back is not restricted by this, since every sequence of
    answers is the behaviour of some service ([scripted_answers]), but
    what a service that depends on the order of arrival would answer is
    outside the model. *)
Fixpoint gather {A : Type} (tasks : list (IO A)) : IO (list A) :=
  match tasks with
  | [] => ret []
  | task :: rest =>
      let! r := task in
      let! rs := gather rest in
      ret (r :: rs)
  end.

Definition is_instruction (client : AsyncInferenceClient) (inputs : list string)
  : IO (list bool) :=
  let convert_to_bool (result : ClassificationResult) : bool :=
    bool_decide (label result = "LABEL_1") in
  let tasks := map (text_classification client) inputs in
  let! results := gather tasks in
  let results := map convert_to_bool results in
  ret results.

(** The validator object: what the base class set up, and the two
    attributes [__init__] assigns. *)
Record DetectManyShotJailbreak : Type :=
  { validator_base : Base;
    num_few_shot_examples : Z;
    classification_client : AsyncInferenceClient }.

(** The constructor; the source defaults are [num_few_shot_examples = 64],
    [on_fail = None] and [api_endpoint = None].  [environ] is [os.environ].
    The base-class constructor runs first and its exception, if any,
    propagates.  The last statement of the source builds a request
    coroutine and drops it without awaiting it, so no request is sent. *)
Definition __init__ (environ : gmap string string)
    (num_few_shot_examples : Z) (on_fail : option OnFail)
    (api_endpoint : option string)
  : Exception + DetectManyShotJailbreak :=
  match Validator_init on_fail num_few_shot_examples with
  | inl raised => inl raised
  | inr super =>
      if negb (truthy api_endpoint) then
        inl (ValueError "API endpoint must be provided!")
      else
        match environ !! "HF_API_KEY" with
        | None => inl (KeyError "HF_API_KEY")
        | Some key =>
            let client :=
              {| model := default EmptyString api_endpoint;
                 token := key;
                 timeout := 30 |} in
            let _awaken :=
              text_classification client "<built-in function input>" in
            inr {| validator_base := super;
                   num_few_shot_examples := num_few_shot_examples;
                   classification_client := client |}
        end
  end.

Definition detect_many_shot_jailbreak (self : DetectManyShotJailbreak)
    (value : string) : IO bool :=
  let lines := split newline value in
  let! results := is_instruction (classification_client self) lines in
  let num_instructions := sum (map int results) in
  if num_instructions >=? num_few_shot_examples self then ret true
  else ret false.

(** [asyncio.run(coro)] runs the coroutine to completion. *)
Definition asyncio_run {A : Type} (coro : IO A) : IO A := coro.

(** [x is not None] for a [bool]. *)
Definition is_not_None (x : bool) : bool := true.

Definition validate (self : DetectManyShotJailbreak) (value : string)
    (metadata : gmap string string) : IO ValidationResult :=
  if len value >=? 14500 then
    ret (FailResult
           ("Prompt length of " +:+ str (len value)
            +:+ " is over a max supported length of 15,000 characters."))
  else
    let! contains_many_shot_jailbreak :=
      asyncio_run (detect_many_shot_jailbreak self value) in
    if is_not_None contains_many_shot_jailbreak && contains_many_shot_jailbreak
    then
      ret (FailResult
             ("The input contains a many-shot jailbreak. "
              +:+ "Please ensure that the input is not a many-shot jailbreak."))
    else ret PassResult.

(** The conversation with the service when [inputs] are submitted in
    order from state [s]: the log entries and the state it ends in. *)
Fixpoint exchange (m : string) (s : Server) (inputs : list string)
  : list Call * Server :=
  match inputs with
  | [] => ([], s)
  | input :: rest =>
      let (result, s') := serve s m input in
      let (cs, s'') := exchange m s' rest in
      ({| call_model := m; call_text := input; call_result := result |} :: cs,
       s'')
  end.

(** The log entries for the lines of [value], submitted from world [w]. *)
Definition classified_lines (self : DetectManyShotJailbreak) (value : string)
    (w : World) : list Call :=
  (exchange (model (classification_client self)) (server w)
            (split newline value)).1.

End Validator.

Arguments World : clear implicits.
Arguments IO : clear implicits.
Arguments DetectManyShotJailbreak : clear implicits.

(** ** Concrete services and inputs, for running the validator *)

Module Demo.

(** A service that counts its requests and labels every non-empty text
    an instruction. *)
Definition eager (n : nat) (m text : string) : ClassificationResult * nat :=
  ({| label := if String.eqb text EmptyString then "LABEL_0" else "LABEL_1" |},
   S n).

(** A stateless service that never sees an instruction. *)
Definition lenient (_ : unit) (m text : string) : ClassificationResult * unit :=
  ({| label := "LABEL_0" |}, tt).

(** A stateless service that labels every non-empty text an instruction. *)
Definition picky (_ : unit) (m text : string) : ClassificationResult * unit :=
  ({| label := if String.eqb text EmptyString then "LABEL_0" else "LABEL_1" |},
   tt).

(** A service that reads its answers from a script, whatever it is asked. *)
Definition scripted (script : list ClassificationResult) (m text : string)
  : ClassificationResult * list ClassificationResult :=
  match script with
  | answer :: rest => (answer, rest)
  | [] => ({| label := "LABEL_0" |}, [])
  end.

Definition fresh {Server : Type} (s : Server) : World Server :=
  {| server := s; calls := [] |}.

Definition environ : gmap string string := {[ "HF_API_KEY" := "hf_demo" ]}.

Definition client : AsyncInferenceClient :=
  {| model := "https://demo.endpoint"; token := "hf_demo"; timeout := 30 |}.

Definition validator (n : Z) : DetectManyShotJailbreak unit :=
  {| validator_base := tt; num_few_shot_examples := n; classification_client := client |}.

(** Values one may pass as [on_fail]: the name of an action, a callable,
    or something that is neither. *)
Inductive Handler : Type :=
| HandlerName (name : string)
| HandlerCallable (id : nat)
| HandlerNumber (n : Z).

(** A base-class constructor that accepts whatever it is given. *)
Definition accepting_init (on_fail : option Handler) (n : Z) : Exception + unit :=
  inr tt.

(** A base-class constructor that checks [on_fail]: it accepts [None], a
    callable and the name of the no-op action, raises [ValueError] for
    another name and [TypeError] for a value of another kind. *)
Definition checking_init (on_fail : option Handler) (n : Z) : Exception + unit :=
  match on_fail with
  | None => inr tt
  | Some (HandlerCallable _) => inr tt
  | Some (HandlerName name) =>
      if String.eqb name "noop" then inr tt
      else inl (ValueError "on_fail is not the name of an action")
  | Some (HandlerNumber _) =>
      inl (TypeError "on_fail is neither a callable nor the name of an action")
  end.

Definition nl : string := String newline EmptyString.

(** Two instructions, each closed by a newline: three segments. *)
Definition two_shots : string := "Do this." +:+ nl +:+ "Do that." +:+ nl.

Fixpoint replicate_char (n : nat) (c : ascii) : string :=
  match n with
  | O => EmptyString
  | S n' => String c (replicate_char n' c)
  end.

(** A one-line prompt of exactly 14500 characters. *)
Definition long_value : string := replicate_char (Z.to_nat 14500) "a"%char.

End Demo.

(** ** Facts about the builtins *)

Lemma split_nonempty sep s : split sep s <> [].
Proof.
  destruct s as [|c rest]; simpl; [done|].
  destruct (Ascii.eqb c sep); [done|].
  by destruct (split sep rest).
Qed.

Lemma split_length sep s : length (split sep s) = (count sep s + 1)%nat.
Proof.
  induction s as [|c rest IH]; simpl; [done|].
  destruct (Ascii.eqb c sep); simpl; [by rewrite IH|].
  pose proof (split_nonempty sep rest) as Hne.
  destruct (split sep rest); [done|]. exact IH.
Qed.

Lemma join_split sep s : join sep (split sep s) = s.
Proof.
  induction s as [|c rest IH]; simpl; [done|].
  destruct (Ascii.eqb_spec c sep) as [->|Hc].
  - pose proof (split_nonempty sep rest) as Hne.
    simpl. destruct (split sep rest) as [|seg segs]; [done|].
    by rewrite IH.
  - pose proof (split_nonempty sep rest) as Hne.
    destruct (split sep rest) as [|seg segs]; [done|].
    simpl in *. destruct segs; simpl; by rewrite <- IH.
Qed.

Lemma split_no_separator sep s :
  Forall (fun seg => count sep seg = 0%nat) (split sep s).
Proof.
  induction s as [|c rest IH]; simpl.
  - by repeat constructor.
  - destruct (Ascii.eqb c sep) eqn:Hc; [by constructor|].
    destruct (split sep rest) as [|seg segs]; simpl.
    + repeat constructor. simpl. by rewrite Hc.
    + inversion IH; subst. constructor; [|done]. simpl. by rewrite Hc.
Qed.

Lemma split_endswith sep s :
  endswith sep s = true -> last (split sep s) = Some EmptyString.
Proof.
  induction s as [|c rest IH]; [done|].
  intros H.
  assert (rest = EmptyString /\ Ascii.eqb c sep = true
          \/ rest <> EmptyString /\ endswith sep rest = true) as Hcases.
  { simpl in H. destruct rest; [left|right]; done. }
  simpl. destruct Hcases as [[-> Hc]|[Hne H']].
  - by rewrite Hc.
  - specialize (IH H').
    pose proof (join_split sep rest) as Hj.
    destruct (split sep rest) as [|seg segs]; [done|].
    destruct (Ascii.eqb c sep); [exact IH|].
    destruct segs as [|seg' segs]; [|exact IH].
    simpl in IH, Hj. congruence.
Qed.

Lemma sum_from (xs : list Z) (a : Z) : fold_left Z.add xs a = a + sum xs.
Proof.
  unfold sum. revert a.
  induction xs as [|x xs IH]; intros a; simpl; [lia|].
  rewrite (IH (a + x)), (IH (0 + x)). lia.
Qed.

Lemma sum_cons (x : Z) (xs : list Z) : sum (x :: xs) = x + sum xs.
Proof. unfold sum at 1. simpl. by rewrite sum_from. Qed.

(** Summing the [int] of the converted answers counts the instructions. *)
Lemma sum_int_instruction_count (cs : list Call) :
  sum (map int (map (fun result => bool_decide (label result = "LABEL_1"))
                    (map call_result cs)))
  = Z.of_nat (instruction_count cs).
Proof.
  unfold instruction_count.
  induction cs as [|c cs IH]; [done|].
  cbn [map]. rewrite sum_cons, IH.
  destruct (bool_decide (label (call_result c) = "LABEL_1")) eqn:Hc.
  - rewrite filter_cons_True by exact Hc. simpl. lia.
  - rewrite filter_cons_False; [simpl; lia|].
    unfold labelled_instruction. by rewrite Hc.
Qed.

(** ** The conversation with the service *)

Section Conversation.

Context {Server : Type}.
Variable serve : Server -> string -> string -> ClassificationResult * Server.

Lemma exchange_texts m s inputs :
  map call_text (exchange serve m s inputs).1 = inputs.
Proof.
  revert s. induction inputs as [|input rest IH]; intros s; simpl; [done|].
  destruct (serve s m input) as [result s'].
  specialize (IH s'). destruct (exchange serve m s' rest) as [cs s''].
  simpl in *. by rewrite IH.
Qed.

Lemma exchange_models m s inputs :
  Forall (fun c => call_model c = m) (exchange serve m s inputs).1.
Proof.
  revert s. induction inputs as [|input rest IH]; intros s; simpl.
  - constructor.
  - destruct (serve s m input) as [result s'].
    specialize (IH s'). destruct (exchange serve m s' rest) as [cs s''].
    simpl in *. by constructor.
Qed.

Lemma exchange_length m s inputs :
  length (exchange serve m s inputs).1 = length inputs.
Proof. by rewrite <- (exchange_texts m s inputs) at 2; rewrite length_map. Qed.

(** Every log entry holds what the service answered at that point. *)
Lemma exchange_answers m s inputs :
  forall i c, (exchange serve m s inputs).1 !! i = Some c ->
    exists s_i, (serve s_i m (call_text c)).1 = call_result c.
Proof.
  revert s. induction inputs as [|input rest IH]; intros s i c; simpl; [done|].
  destruct (serve s m input) as [result s'] eqn:Hs.
  specialize (IH s'). destruct (exchange serve m s' rest) as [cs s''].
  destruct i as [|i]; simpl.
  - intros [= <-]. exists s. simpl. by rewrite Hs.
  - apply IH.
Qed.

(** Gathering the requests for [inputs] is the conversation [exchange]
    describes, appended to the log. *)
Lemma gather_text_classification client inputs w :
  gather (map (text_classification serve client) inputs) w
  = (map call_result (exchange serve (model client) (server w) inputs).1,
     {| server := (exchange serve (model client) (server w) inputs).2;
        calls := calls w ++ (exchange serve (model client) (server w) inputs).1 |}).
Proof.
  revert w. induction inputs as [|input rest IH]; intros w.
  - simpl. unfold ret. rewrite app_nil_r. by destruct w.
  - cbn [map gather]. unfold bind at 1. unfold text_classification at 1.
    cbn [exchange].
    destruct (serve (server w) (model client) input) as [result s'].
    unfold bind at 1. rewrite IH. cbn [server calls].
    destruct (exchange serve (model client) s' rest) as [cs s''].
    unfold ret. cbn [fst snd map]. by rewrite <- app_assoc.
Qed.

Lemma is_instruction_run client inputs w :
  is_instruction serve client inputs w
  = (map (fun result => bool_decide (label result = "LABEL_1"))
         (map call_result (exchange serve (model client) (server w) inputs).1),
     {| server := (exchange serve (model client) (server w) inputs).2;
        calls := calls w ++ (exchange serve (model client) (server w) inputs).1 |}).
Proof.
  unfold is_instruction, bind. by rewrite gather_text_classification.
Qed.

End Conversation.

(** Any sequence of answers, one per input, is the behaviour of some
    service: submitting the requests in list order loses no generality. *)
Lemma scripted_answers m (answers : list ClassificationResult) (inputs : list string) :
  length answers = length inputs ->
  map call_result (exchange Demo.scripted m answers inputs).1 = answers.
Proof.
  revert answers.
  induction inputs as [|input rest IH]; intros [|answer answers] Hlen;
    simpl in *; try done.
  specialize (IH answers). 
  destruct (exchange Demo.scripted m answers rest) as [cs s'].
  simpl in *. rewrite IH; [done|lia].
Qed.

(** ** Running the validator *)

Section Runs.

Context {Server : Type}.
Variable serve : Server -> string -> string -> ClassificationResult * Server.
Context {Base : Type}.
Implicit Types (self : DetectManyShotJailbreak Base) (w : World Server).
Implicit Types (value : string) (metadata : gmap string string).

Lemma detect_run self value w :
  detect_many_shot_jailbreak serve self value w
  = (bool_decide (num_few_shot_examples self
                  <= Z.of_nat (instruction_count (classified_lines serve self value w))),
     {| server := (exchange serve (model (classification_client self)) (server w)
                            (split newline value)).2;
        calls := calls w ++ classified_lines serve self value w |}).
Proof.
  unfold detect_many_shot_jailbreak, bind, classified_lines.
  rewrite is_instruction_run, sum_int_instruction_count, Z.geb_leb.
  destruct (Z.leb_spec (num_few_shot_examples self)
              (Z.of_nat (instruction_count
                 (exchange serve (model (classification_client self)) (server w)
                           (split newline value)).1))) as [Hle|Hlt].
  - by rewrite bool_decide_true.
  - rewrite bool_decide_false by lia. done.
Qed.

Lemma validate_over_limit self value metadata w :
  14500 <= len value ->
  validate serve self value metadata w
  = (FailResult ("Prompt length of " +:+ str (len value)
                 +:+ " is over a max supported length of 15,000 characters."),
     w).
Proof.
  intros H. unfold validate. rewrite Z.geb_leb.
  by destruct (Z.leb_spec 14500 (len value)); [|lia].
Qed.

Lemma validate_under_limit self value metadata w :
  len value < 14500 ->
  validate serve self value metadata w
  = ((if (detect_many_shot_jailbreak serve self value w).1
      then FailResult ("The input contains a many-shot jailbreak. "
                       +:+ "Please ensure that the input is not a many-shot jailbreak.")
      else PassResult),
     (detect_many_shot_jailbreak serve self value w).2).
Proof.
  intros H. unfold validate. rewrite Z.geb_leb.
  destruct (Z.leb_spec 14500 (len value)); [lia|].
  unfold bind, asyncio_run, is_not_None.
  destruct (detect_many_shot_jailbreak serve self value w) as [[] w']; done.
Qed.

End Runs.

(** ** The properties of the validator *)

Section Properties.

Context {Server : Type}.
Variable serve : Server -> string -> string -> ClassificationResult * Server.
Context {OnFail Base : Type}.
Variable Validator_init : option OnFail -> Z -> Exception + Base.
Implicit Types (self : DetectManyShotJailbreak Base) (w : World Server).
Implicit Types (value : string) (metadata : gmap string string).

(** C3: [is_instruction] sends exactly one text-classification request
    per input, in the order of the list, and returns one boolean per
    input in that order; the boolean at position [i] is [True] exactly
    when the answer to the request for the input at position [i] has
    the label ["LABEL_1"]. *)
Theorem is_instruction_one_request_per_input
    (client : AsyncInferenceClient) (inputs : list string) w :
  let run := is_instruction serve client inputs w in
  let cs := (exchange serve (model client) (server w) inputs).1 in
  calls run.2 = calls w ++ cs
  /\ map call_text cs = inputs
  /\ Forall (fun c => call_model c = model client) cs
  /\ length run.1 = length inputs
  /\ forall i input, inputs !! i = Some input ->
       exists c b, cs !! i = Some c /\ call_text c = input
                   /\ run.1 !! i = Some b
                   /\ (b = true <-> label (call_result c) = "LABEL_1").
Proof.
  intros run cs. subst run. rewrite is_instruction_run. fold cs. cbn [fst snd calls].
  pose proof (exchange_texts serve (model client) (server w) inputs) as Htexts.
  fold cs in Htexts.
  split; [done|]. split; [done|].
  split; [apply exchange_models|].
  split; [by rewrite !length_map, <- Htexts, length_map|].
  intros i input Hi. rewrite <- Htexts in Hi.
  rewrite list_lookup_fmap in Hi.
  destruct (cs !! i) as [c|] eqn:Hc; [|done]. injection Hi as Hi.
  exists c, (bool_decide (label (call_result c) = "LABEL_1")).
  split; [done|]. split; [done|].
  split; [by rewrite !list_lookup_fmap, Hc|].
  apply bool_decide_eq_true.
Qed.

(** C2: [detect_many_shot_jailbreak] returns [True] exactly when the
    number of newline-separated segments of the value that the service
    labels as instructions reaches [num_few_shot_examples] (reaching it
    is enough), and [False] otherwise, whatever the service answers. *)
Theorem detect_iff_threshold_reached self value w :
  let detected := (detect_many_shot_jailbreak serve self value w).1 in
  let cs := classified_lines serve self value w in
  map call_text cs = split newline value
  /\ (detected = true
      <-> num_few_shot_examples self <= Z.of_nat (instruction_count cs))
  /\ (detected = false
      <-> Z.of_nat (instruction_count cs) < num_few_shot_examples self).
Proof.
  intros detected cs. subst detected. rewrite detect_run. fold cs. cbn [fst].
  split; [apply exchange_texts|].
  rewrite bool_decide_eq_true, bool_decide_eq_false. lia.
Qed.

(** C1: [validate] returns a [FailResult] exactly when the value has at
    least 14500 characters or the number of its lines labelled as
    instructions reaches [num_few_shot_examples]; in every other case it
    returns [PassResult]. *)
Theorem validate_fail_iff self value metadata w :
  let result := (validate serve self value metadata w).1 in
  let cs := classified_lines serve self value w in
  ((exists msg, result = FailResult msg)
   <-> 14500 <= len value
       \/ num_few_shot_examples self <= Z.of_nat (instruction_count cs))
  /\ (result = PassResult
      <-> ~ (14500 <= len value
             \/ num_few_shot_examples self <= Z.of_nat (instruction_count cs))).
Proof.
  intros result cs. subst result.
  destruct (Z.le_gt_cases 14500 (len value)) as [Hlong|Hshort].
  - rewrite validate_over_limit by done. cbn [fst].
    split; [split; eauto|]. split; [done|tauto].
  - rewrite validate_under_limit by lia. rewrite detect_run. fold cs. cbn [fst].
    destruct (bool_decide_reflect
                (num_few_shot_examples self <= Z.of_nat (instruction_count cs)))
      as [Hle|Hlt].
    + split; [split; eauto|]. split; [done|tauto].
    + split; [split; [by intros [msg ?]|lia]|]. split; [lia|done].
Qed.

(** C5: under the length limit the texts submitted for classification
    are exactly the newline-separated segments of the value, in order,
    so there is one request more than the value has newline characters;
    a value ending in a newline has a last, empty line that is
    classified as well, and the empty value has exactly one classified
    line, the empty one. *)
Theorem validate_classifies_every_segment self value metadata w :
  len value < 14500 ->
  exists cs,
    calls (validate serve self value metadata w).2 = calls w ++ cs
    /\ map call_text cs = split newline value
    /\ join newline (map call_text cs) = value
    /\ Forall (fun text => count newline text = 0%nat) (map call_text cs)
    /\ length cs = (count newline value + 1)%nat
    /\ (endswith newline value = true
        -> last (map call_text cs) = Some EmptyString)
    /\ (value = EmptyString -> map call_text cs = [EmptyString]).
Proof.
  intros Hshort. exists (classified_lines serve self value w).
  rewrite validate_under_limit, detect_run by done. cbn [snd calls].
  assert (map call_text (classified_lines serve self value w)
          = split newline value) as Htexts by apply exchange_texts.
  split; [done|]. split; [done|]. rewrite Htexts.
  split; [apply join_split|]. split; [apply split_no_separator|].
  split; [by rewrite <- split_length, <- Htexts, length_map|].
  split; [apply split_endswith|]. by intros ->.
Qed.

(** C6: [validate] returns a [PassResult] or a [FailResult] and nothing
    else, and the error message of a [FailResult] is not empty: it is
    the over-length message or the many-shot-jailbreak message. *)
Theorem validate_pass_or_fail_with_message self value metadata w :
  let result := (validate serve self value metadata w).1 in
  result = PassResult
  \/ exists msg, result = FailResult msg
       /\ msg <> EmptyString
       /\ (msg = "Prompt length of " +:+ str (len value)
                 +:+ " is over a max supported length of 15,000 characters."
           \/ msg = "The input contains a many-shot jailbreak. "
                    +:+ "Please ensure that the input is not a many-shot jailbreak.").
Proof.
  intros result. subst result.
  destruct (Z.le_gt_cases 14500 (len value)) as [Hlong|Hshort].
  - rewrite validate_over_limit by done. right. eexists.
    split; [done|]. split; [done|]. by left.
  - rewrite validate_under_limit by lia. cbn [fst].
    destruct (detect_many_shot_jailbreak serve self value w).1; [|by left].
    right. eexists. split; [done|]. split; [done|]. by right.
Qed.


(** C8: the cutoff in force is 14500, not the 15,000 of the message: a
    value of at least 14500 and fewer than 15000 characters is failed
    with the message that its length is over a maximum of 15,000
    characters. *)
Theorem cutoff_is_14500_not_15000 self value metadata w :
  14500 <= len value < 15000 ->
  (validate serve self value metadata w).1
  = FailResult ("Prompt length of " +:+ str (len value)
                +:+ " is over a max supported length of 15,000 characters.").
Proof. intros [Hlo Hhi]. by rewrite validate_over_limit. Qed.

(** C9: detection is antitone in the threshold: if a value is detected
    with threshold [t], it is detected with every threshold [t' <= t]
    (same client, same service state); with a threshold of zero or less
    every value is detected, so [validate] fails every value under the
    length limit whatever the service answers. *)
Theorem detect_antitone_in_threshold :
  (forall self self' value w,
      classification_client self' = classification_client self ->
      num_few_shot_examples self' <= num_few_shot_examples self ->
      (detect_many_shot_jailbreak serve self value w).1 = true ->
      (detect_many_shot_jailbreak serve self' value w).1 = true)
  /\ (forall self value w,
        num_few_shot_examples self <= 0 ->
        (detect_many_shot_jailbreak serve self value w).1 = true)
  /\ (forall self value metadata w,
        num_few_shot_examples self <= 0 ->
        len value < 14500 ->
        (validate serve self value metadata w).1
        = FailResult ("The input contains a many-shot jailbreak. "
                      +:+ "Please ensure that the input is not a many-shot jailbreak.")).
Proof.
  assert (forall self value w,
             num_few_shot_examples self <= 0 ->
             (detect_many_shot_jailbreak serve self value w).1 = true) as Hzero.
  { intros self value w Hn. rewrite detect_run. cbn [fst].
    apply bool_decide_eq_true. lia. }
  split; [|split; [exact Hzero|]].
  - intros self self' value w Hclient Hle.
    rewrite !detect_run. cbn [fst]. rewrite !bool_decide_eq_true.
    unfold classified_lines. rewrite Hclient. lia.
  - intros self value metadata w Hn Hshort.
    rewrite validate_under_limit by done. cbn [fst]. by rewrite Hzero.
Qed.

End Properties.

(** C4: the length check comes first: a value of at least 14500
    characters gets the over-length [FailResult] and leaves the world as it
    was (no request is sent, nothing is logged), so two runs on the same
    value against any two services, in any two states, return the same
    result. *)
Theorem length_check_precedes_classification
    {Server1 Server2 Base : Type}
    (serve1 : Server1 -> string -> string -> ClassificationResult * Server1)
    (serve2 : Server2 -> string -> string -> ClassificationResult * Server2)
    (self : DetectManyShotJailbreak Base) (value : string)
    (metadata1 metadata2 : gmap string string)
    (w1 : World Server1) (w2 : World Server2) :
  14500 <= len value ->
  validate serve1 self value metadata1 w1
  = (FailResult ("Prompt length of " +:+ str (len value)
                 +:+ " is over a max supported length of 15,000 characters."),
     w1)
  /\ (validate serve1 self value metadata1 w1).1
     = (validate serve2 self value metadata2 w2).1.
Proof.
  intros Hlong. by rewrite !validate_over_limit.
Qed.

(** ** The validator at work on concrete inputs *)

Example split_two_shots :
  split newline Demo.two_shots = ["Do this."; "Do that."; EmptyString].
Proof. reflexivity. Qed.

Example validate_two_shots_fails :
  (validate Demo.eager (Demo.validator 2) Demo.two_shots ∅ (Demo.fresh 0%nat)).1
  = FailResult ("The input contains a many-shot jailbreak. "
                +:+ "Please ensure that the input is not a many-shot jailbreak.").
Proof. reflexivity. Qed.

Example validate_two_shots_passes :
  validate Demo.eager (Demo.validator 3) Demo.two_shots ∅ (Demo.fresh 0%nat)
  = (PassResult,
     {| server := 3%nat;
        calls := [ {| call_model := "https://demo.endpoint"; call_text := "Do this.";
                      call_result := {| label := "LABEL_1" |} |};
                   {| call_model := "https://demo.endpoint"; call_text := "Do that.";
                      call_result := {| label := "LABEL_1" |} |};
                   {| call_model := "https://demo.endpoint"; call_text := EmptyString;
                      call_result := {| label := "LABEL_0" |} |} ] |}).
Proof. reflexivity. Qed.

Example init_with_endpoint :
  __init__ Demo.eager Demo.checking_init Demo.environ 64 None
           (Some "https://demo.endpoint")
  = inr (Demo.validator 64).
Proof. vm_compute. reflexivity. Qed.

Example init_with_unknown_action :
  __init__ Demo.eager Demo.checking_init Demo.environ 64
           (Some (Demo.HandlerName "explode")) (Some "https://demo.endpoint")
  = inl (ValueError "on_fail is not the name of an action").
Proof. vm_compute. reflexivity. Qed.

Example long_value_length : len Demo.long_value = 14500.
Proof. vm_compute. reflexivity. Qed.

Lemma is_instruction_one_request_per_input_witness :
  let inputs := ["Do this."; EmptyString] in
  let run := is_instruction Demo.eager Demo.client inputs (Demo.fresh 0%nat) in
  let cs := (exchange Demo.eager (model Demo.client) 0%nat inputs).1 in
  inputs !! 1%nat = Some EmptyString
  /\ exists c b, cs !! 1%nat = Some c /\ call_text c = EmptyString
                 /\ run.1 !! 1%nat = Some b
                 /\ (b = true <-> label (call_result c) = "LABEL_1").
Proof.
  intros inputs run cs. split; [reflexivity|].
  destruct (is_instruction_one_request_per_input
              Demo.eager Demo.client inputs (Demo.fresh 0%nat))
    as (_ & _ & _ & _ & Hith).
  apply (Hith 1%nat EmptyString). reflexivity.
Defined.

Lemma validate_classifies_every_segment_witness :
  len Demo.two_shots < 14500
  /\ exists cs,
      calls (validate Demo.eager (Demo.validator 64) Demo.two_shots ∅
                      (Demo.fresh 0%nat)).2 = [] ++ cs
      /\ map call_text cs = split newline Demo.two_shots
      /\ join newline (map call_text cs) = Demo.two_shots
      /\ Forall (fun text => count newline text = 0%nat) (map call_text cs)
      /\ length cs = (count newline Demo.two_shots + 1)%nat
      /\ (endswith newline Demo.two_shots = true
          -> last (map call_text cs) = Some EmptyString)
      /\ (Demo.two_shots = EmptyString -> map call_text cs = [EmptyString]).
Proof.
  split; [reflexivity|].
  apply (validate_classifies_every_segment
           Demo.eager (Demo.validator 64) Demo.two_shots ∅ (Demo.fresh 0%nat)).
  reflexivity.
Defined.



Lemma cutoff_is_14500_not_15000_witness :
  14500 <= len Demo.long_value < 15000
  /\ (validate Demo.eager (Demo.validator 64) Demo.long_value ∅ (Demo.fresh 0%nat)).1
     = FailResult ("Prompt length of " +:+ str (len Demo.long_value)
                   +:+ " is over a max supported length of 15,000 characters.").
Proof.
  assert (14500 <= len Demo.long_value < 15000) as Hlen by (vm_compute; split; [discriminate|reflexivity]).
  split; [exact Hlen|].
  apply (cutoff_is_14500_not_15000
           Demo.eager (Demo.validator 64) Demo.long_value ∅ (Demo.fresh 0%nat)).
  exact Hlen.
Defined.

Lemma detect_antitone_in_threshold_witness :
  (detect_many_shot_jailbreak Demo.eager (Demo.validator 2) Demo.two_shots
                              (Demo.fresh 0%nat)).1 = true
  /\ (detect_many_shot_jailbreak Demo.eager (Demo.validator 1) Demo.two_shots
                                 (Demo.fresh 0%nat)).1 = true
  /\ (detect_many_shot_jailbreak Demo.lenient (Demo.validator 0) Demo.two_shots
                                 (Demo.fresh tt)).1 = true
  /\ (validate Demo.lenient (Demo.validator (-1)) Demo.two_shots ∅ (Demo.fresh tt)).1
     = FailResult ("The input contains a many-shot jailbreak. "
                   +:+ "Please ensure that the input is not a many-shot jailbreak.").
Proof.
  split; [reflexivity|].
  split.
  { destruct (detect_antitone_in_threshold (Base := unit) Demo.eager) as (Hanti & _ & _).
    apply (Hanti (Demo.validator 2) (Demo.validator 1)); [reflexivity|by vm_compute|reflexivity]. }
  destruct (detect_antitone_in_threshold (Base := unit) Demo.lenient) as (_ & Hzero & Hfail).
  split.
  - apply Hzero. by vm_compute.
  - apply Hfail; by vm_compute.
Defined.

Lemma length_check_precedes_classification_witness :
  14500 <= len Demo.long_value
  /\ validate Demo.eager (Demo.validator 64) Demo.long_value ∅ (Demo.fresh 0%nat)
     = (FailResult ("Prompt length of " +:+ str (len Demo.long_value)
                    +:+ " is over a max supported length of 15,000 characters."),
        Demo.fresh 0%nat)
  /\ (validate Demo.eager (Demo.validator 64) Demo.long_value ∅ (Demo.fresh 0%nat)).1
     = (validate Demo.lenient (Demo.validator 64) Demo.long_value ∅ (Demo.fresh tt)).1.
Proof.
  assert (14500 <= len Demo.long_value) as Hlen by (vm_compute; discriminate).
  split; [exact Hlen|].
  apply (length_check_precedes_classification
           Demo.eager Demo.lenient (Demo.validator 64) Demo.long_value ∅ ∅
           (Demo.fresh 0%nat) (Demo.fresh tt)).
  exact Hlen.
Defined.


(** ** Further facts about the builtins and the conversation *)

Lemma len_append (s1 s2 : string) : len (s1 +:+ s2) = len s1 + len s2.
Proof.
  unfold len. induction s1 as [|c s1 IH].
  - change (EmptyString +:+ s2) with s2. simpl. lia.
  - change (String c s1 +:+ s2) with (String c (s1 +:+ s2)).
    cbn [String.length]. lia.
Qed.

Lemma len_nonneg (s : string) : 0 <= len s.
Proof. unfold len. lia. Qed.

Lemma count_le_length (c : ascii) (s : string) :
  (count c s <= String.length s)%nat.
Proof.
  induction s as [|c' s IH]; simpl; [lia|].
  destruct (Ascii.eqb c' c); lia.
Qed.

(** Splitting distributes over a separator between two strings. *)
Lemma split_append_separator sep s1 s2 :
  split sep (s1 +:+ String sep s2) = split sep s1 ++ split sep s2.
Proof.
  induction s1 as [|c s1 IH].
  - change (EmptyString +:+ String sep s2) with (String sep s2).
    cbn [split]. by rewrite Ascii.eqb_refl.
  - change (String c s1 +:+ String sep s2) with (String c (s1 +:+ String sep s2)).
    cbn [split]. rewrite IH. destruct (Ascii.eqb c sep); [done|].
    pose proof (split_nonempty sep s1) as Hne.
    by destruct (split sep s1).
Qed.

Lemma instruction_count_le_length (cs : list Call) :
  (instruction_count cs <= length cs)%nat.
Proof. apply length_filter. Qed.

Lemma instruction_count_app (cs1 cs2 : list Call) :
  instruction_count (cs1 ++ cs2)
  = (instruction_count cs1 + instruction_count cs2)%nat.
Proof. unfold instruction_count. by rewrite filter_app, length_app. Qed.

Lemma instruction_count_Permutation (cs1 cs2 : list Call) :
  cs1 ≡ₚ cs2 -> instruction_count cs1 = instruction_count cs2.
Proof.
  unfold instruction_count. intros Hperm.
  induction Hperm as [|c cs1 cs2 _ IH|c c' cs|cs1 cs2 cs3 _ IH1 _ IH2].
  - done.
  - destruct (decide (labelled_instruction c = true)) as [Hc|Hc].
    + rewrite !filter_cons_True by done. simpl. by rewrite IH.
    + by rewrite !filter_cons_False.
  - destruct (decide (labelled_instruction c = true)),
             (decide (labelled_instruction c' = true));
      repeat (first [rewrite filter_cons_True by done
                    |rewrite filter_cons_False by done]); done.
  - by rewrite IH1.
Qed.

Section ConversationSteps.

Context {Server : Type}.
Variable serve : Server -> string -> string -> ClassificationResult * Server.

(** A conversation over a concatenation is the conversation over the first
    part followed, from the state it ends in, by the one over the second. *)
Lemma exchange_app m s inputs1 inputs2 :
  exchange serve m s (inputs1 ++ inputs2)
  = ((exchange serve m s inputs1).1
       ++ (exchange serve m (exchange serve m s inputs1).2 inputs2).1,
     (exchange serve m (exchange serve m s inputs1).2 inputs2).2).
Proof.
  revert s. induction inputs1 as [|input rest IH]; intros s; cbn [app exchange].
  - simpl. by destruct (exchange serve m s inputs2).
  - destruct (serve s m input) as [result s'].
    rewrite IH.
    destruct (exchange serve m s' rest) as [cs1 s1]. cbn [fst snd].
    by destruct (exchange serve m s1 inputs2) as [cs2 s2].
Qed.

(** With a service whose answer depends on the request alone, the log
    entries are computed line by line. *)
Lemma exchange_stateless (classify : string -> string -> ClassificationResult)
    m s inputs :
  (forall s' m' text, serve s' m' text = (classify m' text, s')) ->
  exchange serve m s inputs
  = (map (fun text => {| call_model := m; call_text := text;
                         call_result := classify m text |}) inputs,
     s).
Proof.
  intros Hstateless.
  induction inputs as [|input rest IH]; cbn [exchange map]; [done|].
  by rewrite Hstateless, IH.
Qed.

End ConversationSteps.

(** ** Further properties of the validator *)

Section MoreProperties.

Context {Server : Type}.
Variable serve : Server -> string -> string -> ClassificationResult * Server.
Context {OnFail Base : Type}.
Variable Validator_init : option OnFail -> Z -> Exception + Base.
Implicit Types (self : DetectManyShotJailbreak Base) (w : World Server).
Implicit Types (value : string) (metadata : gmap string string).

(** Under the limit, a value with fewer lines than the threshold passes. *)
Lemma validate_passes_below_threshold self value metadata w :
  len value < 14500 ->
  Z.of_nat (length (split newline value)) < num_few_shot_examples self ->
  (validate serve self value metadata w).1 = PassResult.
Proof.
  intros Hshort Hfew.
  rewrite validate_under_limit, detect_run by done. cbn [fst].
  rewrite bool_decide_false; [done|].
  pose proof (instruction_count_le_length (classified_lines serve self value w)) as Hle.
  unfold classified_lines in Hle at 2. rewrite exchange_length in Hle. lia.
Qed.


(** X2: [validate] only appends to the call log: the earlier entries are
    kept, every new entry is a request to the endpoint the validator was
    configured with, and its recorded result is an answer of the service
    to that request. *)
Theorem validate_asks_only_configured_endpoint self value metadata w :
  exists cs,
    calls (validate serve self value metadata w).2 = calls w ++ cs
    /\ Forall (fun c => call_model c = model (classification_client self)) cs
    /\ Forall (fun c => exists s, (serve s (call_model c) (call_text c)).1
                                  = call_result c) cs.
Proof.
  destruct (Z.le_gt_cases 14500 (len value)) as [Hlong|Hshort].
  - exists []. rewrite validate_over_limit by done. cbn [snd].
    by rewrite app_nil_r.
  - exists (classified_lines serve self value w).
    rewrite validate_under_limit, detect_run by lia. cbn [snd calls].
    split; [done|]. split; [apply exchange_models|].
    apply Forall_lookup. intros i c Hc.
    pose proof (exchange_models serve (model (classification_client self))
                  (server w) (split newline value)) as Hmodels.
    rewrite Forall_lookup in Hmodels. rewrite (Hmodels i c Hc).
    exact (exchange_answers serve _ _ _ i c Hc).
Qed.

(** X3: under the length limit, a value with fewer lines than
    [num_few_shot_examples] passes whatever the service answers: the count
    of instructions cannot exceed the number of lines. *)
Theorem fewer_lines_than_threshold_pass self value metadata w :
  len value < 14500 ->
  Z.of_nat (count newline value + 1) < num_few_shot_examples self ->
  (validate serve self value metadata w).1 = PassResult.
Proof.
  intros Hshort Hfew. apply validate_passes_below_threshold; [done|].
  by rewrite split_length.
Qed.

(** X4: with a threshold above 14500 the validator is a length check and
    nothing more: it passes exactly the values of fewer than 14500
    characters, whatever the service answers, since such a value has at
    most 14500 lines. *)
Theorem threshold_above_cutoff_only_checks_length self value metadata w :
  14500 < num_few_shot_examples self ->
  ((validate serve self value metadata w).1 = PassResult
   <-> len value < 14500).
Proof.
  intros Hn. split.
  - intros Hpass. destruct (Z.le_gt_cases 14500 (len value)) as [Hlong|]; [|lia].
    by rewrite validate_over_limit in Hpass.
  - intros Hshort. apply validate_passes_below_threshold; [done|].
    rewrite split_length.
    pose proof (count_le_length newline value). unfold len in Hshort. lia.
Qed.

(** X5: the error message tells the cause of a failure: the message of a
    [FailResult] is the many-shot-jailbreak message exactly when the value
    is under the length limit, and then the count of instructions has
    reached the threshold. *)
Theorem failure_message_tells_cause self value metadata w (msg : string) :
  (validate serve self value metadata w).1 = FailResult msg ->
  (msg = "The input contains a many-shot jailbreak. "
         +:+ "Please ensure that the input is not a many-shot jailbreak."
   <-> len value < 14500)
  /\ (len value < 14500 ->
      num_few_shot_examples self
      <= Z.of_nat (instruction_count (classified_lines serve self value w))).
Proof.
  destruct (Z.le_gt_cases 14500 (len value)) as [Hlong|Hshort].
  - rewrite validate_over_limit by done. cbn [fst]. intros [= <-].
    split; [|lia]. split; [|lia].
    intros Heq. exfalso. unfold String.append in Heq. discriminate Heq.
  - rewrite validate_under_limit, detect_run by lia. cbn [fst].
    destruct (bool_decide_reflect
                (num_few_shot_examples self
                 <= Z.of_nat (instruction_count (classified_lines serve self value w))))
      as [Hle|Hlt]; [|done].
    intros [= <-]. split; [split; [lia|done]|done].
Qed.

(** X6: appending lines cannot turn a failure into a pass: if [validate]
    fails a value, it fails the value followed by a newline and any
    further text, from the same state of the service. *)
Theorem appending_lines_keeps_failure self value (extra : string) metadata w :
  is_fail (validate serve self value metadata w).1 = true ->
  is_fail (validate serve self (value +:+ String newline extra) metadata w).1 = true.
Proof.
  intros Hfail.
  assert (len (value +:+ String newline extra) = len value + 1 + len extra) as Hlen.
  { rewrite len_append. unfold len. cbn [String.length]. lia. }
  pose proof (len_nonneg extra) as Hextra.
  destruct (Z.le_gt_cases 14500 (len (value +:+ String newline extra)))
    as [Hlong'|Hshort'].
  - by rewrite validate_over_limit.
  - rewrite validate_under_limit, detect_run in * by lia. cbn [fst] in *.
    unfold classified_lines.
    rewrite split_append_separator, exchange_app. cbn [fst].
    rewrite instruction_count_app.
    fold (classified_lines serve self value w).
    destruct (bool_decide_reflect
                (num_few_shot_examples self
                 <= Z.of_nat (instruction_count (classified_lines serve self value w))))
      as [Hle|Hlt]; [|done].
    rewrite bool_decide_true by lia. done.
Qed.

(** X8: with a service whose answer depends on the request alone, the
    verdict of [detect_many_shot_jailbreak] does not depend on the order
    of the lines, nor on the world it starts from: two values whose lines
    are a permutation of each other get the same verdict. *)
Theorem detection_ignores_line_order
    (classify : string -> string -> ClassificationResult)
    self value value' w w' :
  (forall s m text, serve s m text = (classify m text, s)) ->
  split newline value ≡ₚ split newline value' ->
  (detect_many_shot_jailbreak serve self value w).1
  = (detect_many_shot_jailbreak serve self value' w').1.
Proof.
  intros Hstateless Hperm. rewrite !detect_run. cbn [fst].
  unfold classified_lines.
  rewrite !(exchange_stateless serve classify) by done. cbn [fst].
  by rewrite (instruction_count_Permutation _ _
                (fmap_Permutation _ _ _ Hperm)).
Qed.

End MoreProperties.

(** ** The further properties on concrete inputs *)


Lemma fewer_lines_than_threshold_pass_witness :
  len Demo.two_shots < 14500
  /\ Z.of_nat (count newline Demo.two_shots + 1) < 64
  /\ (validate Demo.eager (Demo.validator 64) Demo.two_shots ∅ (Demo.fresh 0%nat)).1
     = PassResult.
Proof.
  split; [reflexivity|]. split; [reflexivity|].
  apply (fewer_lines_than_threshold_pass
           Demo.eager (Demo.validator 64) Demo.two_shots ∅ (Demo.fresh 0%nat));
    reflexivity.
Defined.

Lemma threshold_above_cutoff_only_checks_length_witness :
  14500 < num_few_shot_examples (Demo.validator 14501)
  /\ ((validate Demo.eager (Demo.validator 14501) Demo.two_shots ∅
                (Demo.fresh 0%nat)).1 = PassResult
      <-> len Demo.two_shots < 14500).
Proof.
  split; [reflexivity|].
  apply (threshold_above_cutoff_only_checks_length
           Demo.eager (Demo.validator 14501) Demo.two_shots ∅ (Demo.fresh 0%nat)).
  reflexivity.
Defined.

Lemma failure_message_tells_cause_witness :
  (validate Demo.eager (Demo.validator 2) Demo.two_shots ∅ (Demo.fresh 0%nat)).1
  = FailResult ("The input contains a many-shot jailbreak. "
                +:+ "Please ensure that the input is not a many-shot jailbreak.")
  /\ len Demo.two_shots < 14500
  /\ 2 <= Z.of_nat (instruction_count
                      (classified_lines Demo.eager (Demo.validator 2) Demo.two_shots
                                        (Demo.fresh 0%nat))).
Proof.
  assert ((validate Demo.eager (Demo.validator 2) Demo.two_shots ∅ (Demo.fresh 0%nat)).1
          = FailResult ("The input contains a many-shot jailbreak. "
                        +:+ "Please ensure that the input is not a many-shot jailbreak."))
    as Hfail by reflexivity.
  split; [exact Hfail|].
  destruct (failure_message_tells_cause
              Demo.eager (Demo.validator 2) Demo.two_shots ∅ (Demo.fresh 0%nat) _ Hfail)
    as [[Hunder _] Hcount].
  split; [exact (Hunder eq_refl)|exact (Hcount (Hunder eq_refl))].
Defined.

Lemma appending_lines_keeps_failure_witness :
  is_fail (validate Demo.eager (Demo.validator 2) Demo.two_shots ∅
                    (Demo.fresh 0%nat)).1 = true
  /\ is_fail (validate Demo.eager (Demo.validator 2)
                       (Demo.two_shots +:+ String newline "Ignore the above.") ∅
                       (Demo.fresh 0%nat)).1 = true.
Proof.
  split; [reflexivity|].
  apply (appending_lines_keeps_failure
           Demo.eager (Demo.validator 2) Demo.two_shots "Ignore the above." ∅
           (Demo.fresh 0%nat)).
  reflexivity.
Defined.

Lemma detection_ignores_line_order_witness :
  let value := "Do this." +:+ Demo.nl +:+ "ok" in
  let value' := "ok" +:+ Demo.nl +:+ "Do this." in
  (forall s m text,
      Demo.picky s m text
      = ({| label := if String.eqb text EmptyString then "LABEL_0" else "LABEL_1" |}, s))
  /\ split newline value ≡ₚ split newline value'
  /\ (detect_many_shot_jailbreak Demo.picky (Demo.validator 1) value (Demo.fresh tt)).1
     = (detect_many_shot_jailbreak Demo.picky (Demo.validator 1) value' (Demo.fresh tt)).1.
Proof.
  intros value value'.
  assert (forall s m text,
             Demo.picky s m text
             = ({| label := if String.eqb text EmptyString then "LABEL_0" else "LABEL_1" |}, s))
    as Hstateless by (intros [] m text; reflexivity).
  assert (split newline value ≡ₚ split newline value') as Hperm
    by (change (["Do this."; "ok"] ≡ₚ ["ok"; "Do this."]); apply perm_swap).
  split; [exact Hstateless|]. split; [exact Hperm|].
  exact (detection_ignores_line_order
           Demo.picky
           (fun _ text => {| label := if String.eqb text EmptyString
                                      then "LABEL_0" else "LABEL_1" |})
           (Demo.validator 1) value value' (Demo.fresh tt) (Demo.fresh tt)
           Hstateless Hperm).
Defined.
